(** * sandbox/mhi-compute.py: the MinHash-index driver script of khmer

    The script parses its command line, builds a [khmer.Countgraph],
    feeds every record of a sequence file to [consume_and_tag], asks the
    graph for its neighbourhood MinHashes and saves them.  This file embeds
    the script as a program in a small state-and-exception monad over an
    abstract [Environment] (the khmer and screed libraries, the disk), and
    proves the properties of the driver that the specification states. *)

From Stdlib Require Import ZArith List String Ascii Bool Lia Znumtheory.
From stdpp Require Import gmap strings.
Import ListNotations.
Local Open Scope string_scope.
Local Open Scope list_scope.
Local Open Scope Z_scope.

(** ** Python values used by the script *)

(** Exceptions are identified by the name of their class. *)
Definition exn := string.

(** [os.path.basename] (posixpath): [i = p.rfind('/') + 1; return p[i:]]. *)
Fixpoint rfind_from (c : ascii) (s : string) (i last : Z) : Z :=
  match s with
  | EmptyString => last
  | String a r => rfind_from c r (i + 1) (if Ascii.eqb a c then i else last)
  end.

Definition rfind (c : ascii) (s : string) : Z := rfind_from c s 0 (-1).

Fixpoint drop_chars (n : nat) (s : string) : string :=
  match n, s with
  | O, _ => s
  | S _, EmptyString => EmptyString
  | S m, String _ r => drop_chars m r
  end.

Definition basename (p : string) : string :=
  let i := rfind "/"%char p + 1 in
  drop_chars (Z.to_nat i) p.

(** Truth value of [args.output]: [None] and the empty string are false. *)
Definition truthy (o : option string) : bool :=
  match o with
  | None => false
  | Some s => negb (String.eqb s "")
  end.

(** [print(a, b, ...)] writes its arguments separated by one space. *)
Fixpoint join_space (ws : list string) : string :=
  match ws with
  | [] => ""
  | [w] => w
  | w :: rest => (w ++ " " ++ join_space rest)%string
  end.

(** ** Trial division, used for the hash modulus *)

Fixpoint no_divisor_from (fuel : nat) (d n : Z) : bool :=
  match fuel with
  | O => n <? d * d
  | S f =>
      if n <? d * d then true
      else if n mod d =? 0 then false
      else no_divisor_from f (d + 1) n
  end.

Definition is_prime (n : Z) : bool :=
  (1 <? n) && no_divisor_from (Z.to_nat (Z.sqrt n)) 2 n.


(** ** What the script reads from its surroundings *)

(** A [screed] record: the script uses [record.name] and [record.sequence]. *)
Record record := { name : string; sequence : string }.

(** The lazy, finite sequence of records that iterating over
    [screed.open(filename)] produces.  Reading can break off with an
    exception after any number of records. *)
Inductive stream : Type :=
| Done
| Yield (r : record) (rest : stream)
| Broken (e : exn).

Fixpoint stream_records (s : stream) : list record :=
  match s with
  | Done => []
  | Yield r rest => r :: stream_records rest
  | Broken _ => []
  end.

Fixpoint stream_complete (s : stream) : bool :=
  match s with
  | Done => true
  | Yield _ rest => stream_complete rest
  | Broken _ => false
  end.

(** The khmer and screed libraries, argparse's help text and the disk.
    None of them is part of the script; the script is embedded over any
    implementation of this interface.  A call either raises ([inl]) or
    returns ([inr]); [save] may fail after it has touched the disk. *)
Record Environment : Type := {
  countgraph : Type;
  nbhd_index : Type;
  disk : Type;
  format_help : string;
  screed_open : string -> disk -> exn + stream;
  Countgraph : Z -> Z -> Z -> exn + countgraph;
  _set_tag_density : Z -> countgraph -> exn + countgraph;
  consume_and_tag : string -> countgraph -> exn + countgraph;
  build_neighborhood_minhashes : Z -> Z -> bool -> countgraph -> exn + nbhd_index;
  save : nbhd_index -> string -> disk -> option exn * disk
}.

(** The calls the script makes on the libraries, in the order it makes
    them (instrumentation: the script itself keeps no such log). *)
Inductive call : Type :=
| CallCountgraph (k table_size n_tables : Z)
| CallSetTagDensity (density : Z)
| CallScreedOpen (filename : string)
| CallConsumeAndTag (seq : string)
| CallBuild (sketch_size modulus : Z) (is_protein : bool)
| CallSave (path : string).

Definition mutates_graph (c : call) : bool :=
  match c with
  | CallCountgraph _ _ _ | CallSetTagDensity _ | CallConsumeAndTag _ => true
  | _ => false
  end.

Definition is_build (c : call) : bool :=
  match c with CallBuild _ _ _ => true | _ => false end.

(** ** The command line *)

(** The module-level constants, lines 19-20. *)
Record module_globals := { MH_LEN : Z; KSIZE : Z }.

Definition script_globals : module_globals := {| MH_LEN := 50; KSIZE := 32 |}.

(** What the user wrote after the script's name: [seqfile], and optionally
    [-o output_filename], [--protein], [-k KSIZE]. *)
Record command_line := {
  cl_seqfile : string;
  cl_output : option string;
  cl_protein : bool;
  cl_ksize : option Z
}.

(** The three ways [parser.parse_args()] can go: [-h]/[--help] is among
    the arguments; the arguments do not fit the parser (no [seqfile], an
    unknown option, a [-k] value that is not an integer); or they fit. *)
Inductive invocation : Type :=
| HelpRequested
| UsageError
| Supplied (c : command_line).

(** The [args] namespace that [parse_args] returns. *)
Record Namespace := {
  args_seqfile : string;
  args_output : option string;
  args_protein : bool;
  args_ksize : Z
}.

(** ** The process and the monad of the script *)

Inductive outcome (A : Type) : Type :=
| Returned (a : A)
| Raised (e : exn)
| Exited (status : Z).
Arguments Returned {A} a.
Arguments Raised {A} e.
Arguments Exited {A} status.


Section Script.
Context (E : Environment).

(** Standard output, the disk, the two objects [main] holds ([ct] and
    [nbhd_mh]; both are mutable Python objects that live in the store) and
    the call log. *)
Record process : Type := {
  stdout : list string;
  files : disk E;
  ct : option (countgraph E);
  nbhd_mh : option (nbhd_index E);
  calls : list call
}.

Definition initial (d : disk E) : process :=
  {| stdout := []; files := d; ct := None; nbhd_mh := None; calls := [] |}.

Definition M (A : Type) : Type := process -> outcome A * process.

Definition ret {A} (a : A) : M A := fun p => (Returned a, p).

Definition bind {A B} (m : M A) (k : A -> M B) : M B := fun p =>
  match m p with
  | (Returned a, p') => k a p'
  | (Raised e, p') => (Raised e, p')
  | (Exited status, p') => (Exited status, p')
  end.

Definition raise {A} (e : exn) : M A := fun p => (Raised e, p).

Definition sys_exit {A} (status : Z) : M A := fun p => (Exited status, p).

Definition lift {A} (r : exn + A) : M A :=
  match r with
  | inl e => raise e
  | inr a => ret a
  end.

Notation "x <- m ;; k" := (bind m (fun x => k))
  (at level 100, m at next level, right associativity).
Notation "m ;;; k" := (bind m (fun _ => k))
  (at level 100, right associativity).

Definition write (line : string) : M unit := fun p =>
  (Returned tt,
   {| stdout := stdout p ++ [line]; files := files p; ct := ct p;
      nbhd_mh := nbhd_mh p; calls := calls p |}).

Definition print (ws : list string) : M unit := write (join_space ws).

Definition log (c : call) : M unit := fun p =>
  (Returned tt,
   {| stdout := stdout p; files := files p; ct := ct p;
      nbhd_mh := nbhd_mh p; calls := calls p ++ [c] |}).

Definition get_ct : M (countgraph E) := fun p =>
  match ct p with
  | Some g => (Returned g, p)
  | None => (Raised "NameError", p)
  end.

Definition set_ct (g : countgraph E) : M unit := fun p =>
  (Returned tt,
   {| stdout := stdout p; files := files p; ct := Some g;
      nbhd_mh := nbhd_mh p; calls := calls p |}).

Definition get_nbhd_mh : M (nbhd_index E) := fun p =>
  match nbhd_mh p with
  | Some i => (Returned i, p)
  | None => (Raised "NameError", p)
  end.

Definition set_nbhd_mh (i : nbhd_index E) : M unit := fun p =>
  (Returned tt,
   {| stdout := stdout p; files := files p; ct := ct p;
      nbhd_mh := Some i; calls := calls p |}).

(** [screed.open(filename)] *)
Definition do_screed_open (filename : string) : M stream := fun p =>
  bind (log (CallScreedOpen filename))
       (fun _ => lift (screed_open E filename (files p))) p.

(** [ct = khmer.Countgraph(k, table_size, n_tables)] *)
Definition new_Countgraph (k table_size n_tables : Z) : M unit :=
  log (CallCountgraph k table_size n_tables);;;
  g <- lift (Countgraph E k table_size n_tables);;
  set_ct g.

(** [ct._set_tag_density(d)] *)
Definition ct_set_tag_density (d : Z) : M unit :=
  log (CallSetTagDensity d);;;
  g <- get_ct;;
  g' <- lift (_set_tag_density E d g);;
  set_ct g'.

(** [ct.consume_and_tag(seq)] *)
Definition ct_consume_and_tag (seq : string) : M unit :=
  log (CallConsumeAndTag seq);;;
  g <- get_ct;;
  g' <- lift (consume_and_tag E seq g);;
  set_ct g'.

(** [nbhd_mh = ct.build_neighborhood_minhashes(n, m, is_protein)] *)
Definition ct_build_neighborhood_minhashes (n m : Z) (is_protein : bool) : M unit :=
  log (CallBuild n m is_protein);;;
  g <- get_ct;;
  i <- lift (build_neighborhood_minhashes E n m is_protein g);;
  set_nbhd_mh i.

(** [nbhd_mh.save(path)] *)
Definition nbhd_mh_save (path : string) : M unit :=
  log (CallSave path);;;
  i <- get_nbhd_mh;;
  fun p =>
    let '(failure, d) := save E i path (files p) in
    let p' := {| stdout := stdout p; files := d; ct := ct p;
                 nbhd_mh := nbhd_mh p; calls := calls p |} in
    match failure with
    | Some e => (Raised e, p')
    | None => (Returned tt, p')
    end.

(** ** The script *)

(** Lines 30-35.  [-k] has [default=KSIZE]; [-o] has no default, so
    [args.output] is [None] when it is left out.  [-h] prints the help
    and exits with status 0; an argument error exits with status 2. *)
Definition parse_args (g : module_globals) (argv : invocation) : M Namespace :=
  match argv with
  | HelpRequested => write (format_help E);;; sys_exit 0
  | UsageError => sys_exit 2
  | Supplied c =>
      ret {| args_seqfile := cl_seqfile c;
             args_output := cl_output c;
             args_protein := cl_protein c;
             args_ksize := match cl_ksize c with Some k => k | None => KSIZE g end |}
  end.

(** Lines 38-40: [outfile = args.output], replaced by the default when it
    is not truthy. *)
Definition output_path (args : Namespace) : string :=
  match args_output args with
  | Some outfile =>
      if negb (truthy (Some outfile))
      then (basename (args_seqfile args) ++ ".mhi")%string
      else outfile
  | None => (basename (args_seqfile args) ++ ".mhi")%string
  end.

(** The body of the [for] loop of [load_and_tag], over the records that
    are still to come. *)
Fixpoint for_records (s : stream) : M unit :=
  match s with
  | Done => ret tt
  | Broken e => raise e
  | Yield r rest =>
      print ["."; name r];;;
      ct_consume_and_tag (sequence r);;;
      for_records rest
  end.

(** Lines 22-27.  The graph is the object [ct] of the store. *)
Definition load_and_tag (filename : string) : M unit :=
  print ["reading and tagging sequences"];;;
  s <- do_screed_open filename;;
  for_records s;;;
  print ["...done loading sequences!"].

(** Lines 29-56.  The table size is written [5e8] in the script, the
    float that is exactly the integer 500000000. *)
Definition main (g : module_globals) (argv : invocation) : M unit :=
  args <- parse_args g argv;;
  let seqfile := args_seqfile args in
  let outfile := output_path args in
  print ["loading sequences from"; seqfile];;;
  print ["will save MinHash index to"; outfile];;;
  new_Countgraph (args_ksize args) 500000000 2;;;
  ct_set_tag_density 200;;;
  load_and_tag seqfile;;;
  print ["building nbhd minhashes..."];;;
  ct_build_neighborhood_minhashes 20 9999999967 (args_protein args);;;
  nbhd_mh_save outfile;;;
  print ["...done building! mhi saved to"; outfile].

(** One run of the script from a fresh interpreter. *)
Definition run (g : module_globals) (argv : invocation) (d : disk E)
  : outcome unit * process :=
  main g argv (initial d).

End Script.

Arguments stdout {E} p.
Arguments files {E} p.
Arguments ct {E} p.
Arguments nbhd_mh {E} p.
Arguments calls {E} p.

(** ** Reading a call log *)

(** The calls made before the first call of
    [build_neighborhood_minhashes], and those made after it. *)
Fixpoint before_build (l : list call) : list call :=
  match l with
  | [] => []
  | c :: rest => if is_build c then [] else c :: before_build rest
  end.

Fixpoint after_build (l : list call) : list call :=
  match l with
  | [] => []
  | c :: rest => if is_build c then rest else after_build rest
  end.

(** The sequences handed to [consume_and_tag], in order. *)
Fixpoint consumed (l : list call) : list string :=
  match l with
  | [] => []
  | CallConsumeAndTag seq :: rest => seq :: consumed rest
  | _ :: rest => consumed rest
  end.

(** The paths handed to [save], in order. *)
Fixpoint saved_paths (l : list call) : list string :=
  match l with
  | [] => []
  | CallSave path :: rest => path :: saved_paths rest
  | _ :: rest => saved_paths rest
  end.


(** The namespace a fitting command line parses to. *)
Definition namespace_of (g : module_globals) (c : command_line) : Namespace :=
  {| args_seqfile := cl_seqfile c;
     args_output := cl_output c;
     args_protein := cl_protein c;
     args_ksize := match cl_ksize c with Some k => k | None => KSIZE g end |}.

(** ** A library that remembers what it was asked *)

(** Modelled from the spec: [khmer.Countgraph], its methods
    [_set_tag_density], [consume_and_tag], [build_neighborhood_minhashes],
    the [save] method of the index and [screed.open] are not under the
    script's source.  The spec (sections 4.2 to 4.5 and 6) makes the graph a
    function of the constructor arguments, the tag density and the
    sequences consumed so far, and the index a function of the graph and the
    three sketching arguments; this environment keeps exactly those.  It is
    used to run the script on concrete inputs; every general statement
    below is proved for an arbitrary [Environment]. *)
Module Recorder.

Record graph := {
  g_ksize : Z;
  g_table_size : Z;
  g_n_tables : Z;
  g_tag_density : option Z;
  g_sequences : list string
}.

Record index := {
  i_sketch_size : Z;
  i_modulus : Z;
  i_protein : bool;
  i_graph : graph
}.

(** A path holds a sequence file, a saved index, or is a directory (it
    can be neither read as sequences nor written). *)
Inductive file : Type :=
| SequenceFile (s : stream)
| IndexFile (i : index)
| Directory.

Definition open (filename : string) (d : gmap string file) : exn + stream :=
  match d !! filename with
  | Some (SequenceFile s) => inr s
  | _ => inl "IOError"
  end.

Definition write_index (i : index) (path : string) (d : gmap string file)
  : option exn * gmap string file :=
  match d !! path with
  | Some Directory => (Some "IOError", d)
  | _ => (None, <[path := IndexFile i]> d)
  end.

Definition env : Environment := {|
  countgraph := graph;
  nbhd_index := index;
  disk := gmap string file;
  format_help := "usage: mhi-compute.py [-h] [-o output_filename] [--protein] [-k KSIZE] seqfile";
  screed_open := open;
  Countgraph := fun k size n =>
    inr {| g_ksize := k; g_table_size := size; g_n_tables := n;
           g_tag_density := None; g_sequences := [] |};
  _set_tag_density := fun d g =>
    inr {| g_ksize := g_ksize g; g_table_size := g_table_size g;
           g_n_tables := g_n_tables g; g_tag_density := Some d;
           g_sequences := g_sequences g |};
  consume_and_tag := fun seq g =>
    inr {| g_ksize := g_ksize g; g_table_size := g_table_size g;
           g_n_tables := g_n_tables g; g_tag_density := g_tag_density g;
           g_sequences := g_sequences g ++ [seq] |};
  build_neighborhood_minhashes := fun n m p g =>
    inr {| i_sketch_size := n; i_modulus := m; i_protein := p; i_graph := g |};
  save := write_index
|}.

(** Two reads, and a disk that holds them under [reads.fa]. *)
Definition two_reads : stream :=
  Yield {| name := "r1"; sequence := "ACGTACGT" |}
    (Yield {| name := "r2"; sequence := "TTGCA" |} Done).

Definition disk0 : gmap string file := {[ "reads.fa" := SequenceFile two_reads ]}.

(** The same file when reading it breaks off after the first record. *)
Definition broken_reads : stream :=
  Yield {| name := "r1"; sequence := "ACGTACGT" |} (Broken "IOError").

Definition disk_broken : gmap string file :=
  {[ "reads.fa" := SequenceFile broken_reads ]}.

(** [disk0] with a directory where the default output path points. *)
Definition disk_locked : gmap string file :=
  <[ "reads.fa.mhi" := Directory ]> disk0.

(** [mhi-compute.py reads.fa] *)
Definition plain : command_line :=
  {| cl_seqfile := "reads.fa"; cl_output := None; cl_protein := false; cl_ksize := None |}.

(** [mhi-compute.py reads.fa -o ''] *)
Definition empty_output : command_line :=
  {| cl_seqfile := "reads.fa"; cl_output := Some ""; cl_protein := false; cl_ksize := None |}.

(** [mhi-compute.py data/reads.fa -o out/index.mhi -k 21 --protein] *)
Definition full : command_line :=
  {| cl_seqfile := "data/reads.fa"; cl_output := Some "out/index.mhi";
     cl_protein := true; cl_ksize := Some 21 |}.

Definition run_on (argv : invocation) (d : gmap string file)
  : outcome unit * process env :=
  run env script_globals argv d.

End Recorder.

(** The arguments of the [khmer.Countgraph] constructions, and of the calls
    of [build_neighborhood_minhashes], in a call log. *)
Fixpoint constructions (l : list call) : list (Z * Z * Z) :=
  match l with
  | [] => []
  | CallCountgraph k size n :: rest => (k, size, n) :: constructions rest
  | _ :: rest => constructions rest
  end.

Fixpoint builds (l : list call) : list (Z * Z * bool) :=
  match l with
  | [] => []
  | CallBuild n m b :: rest => (n, m, b) :: builds rest
  | _ :: rest => builds rest
  end.

(** Whether every path handed to [save] differs from [outfile], as it would
    if the index went to a temporary path first. *)
Definition saves_elsewhere (outfile : string) (l : list call) : bool :=
  forallb (fun path => negb (String.eqb path outfile)) (saved_paths l).

(** The same command line with [--protein] given or left out. *)
Definition with_protein (b : bool) (c : command_line) : command_line :=
  {| cl_seqfile := cl_seqfile c; cl_output := cl_output c;
     cl_protein := b; cl_ksize := cl_ksize c |}.

(** The module with another value bound to [MH_LEN]. *)
Definition with_MH_LEN (v : Z) (g : module_globals) : module_globals :=
  {| MH_LEN := v; KSIZE := KSIZE g |}.

(** Two processes that differ at most in the disk. *)
Definition same_but_files {E : Environment} (p1 p2 : process E) : Prop :=
  stdout p1 = stdout p2 /\ ct p1 = ct p2 /\ nbhd_mh p1 = nbhd_mh p2 /\
  calls p1 = calls p2.

(** ** What a run is expected to look like *)

(** [consume_and_tag] applied to the sequences in turn, stopping at the
    first one on which it raises. *)
Fixpoint consume_all (E : Environment) (seqs : list string) (g : countgraph E)
  : exn + countgraph E :=
  match seqs with
  | [] => inr g
  | seq :: rest =>
      match consume_and_tag E seq g with
      | inl e => inl e
      | inr g' => consume_all E rest g'
      end
  end.

(** The line [print('.', record.name)] writes for a record. *)
Definition progress_line (r : record) : string := join_space ["."; name r].

(** The library calls of a run that goes through, for the sequences of
    the input file. *)
Definition script_calls (args : Namespace) (seqs : list string) : list call :=
  [CallCountgraph (args_ksize args) 500000000 2;
   CallSetTagDensity 200;
   CallScreedOpen (args_seqfile args)]
  ++ map CallConsumeAndTag seqs
  ++ [CallBuild 20 9999999967 (args_protein args);
      CallSave (output_path args)].

(** The lines a run that goes through prints, for the records of the
    input file. *)
Definition script_output (args : Namespace) (rs : list record) : list string :=
  [join_space ["loading sequences from"; args_seqfile args];
   join_space ["will save MinHash index to"; output_path args];
   "reading and tagging sequences"]
  ++ map progress_line rs
  ++ ["...done loading sequences!";
      "building nbhd minhashes...";
      join_space ["...done building! mhi saved to"; output_path args]].

(** What iterating over [screed.open(filename)] would yield on a disk. *)
Definition file_records (E : Environment) (filename : string) (d : disk E)
  : list record :=
  match screed_open E filename d with
  | inr s => stream_records s
  | inl _ => []
  end.

(** Whether a character occurs in a string. *)
Fixpoint occurs (c : ascii) (s : string) : bool :=
  match s with
  | EmptyString => false
  | String a r => Ascii.eqb a c || occurs c r
  end.

(** ** Values of the recording library used in the examples *)

(** The arguments of [mhi-compute.py data/reads.fa]. *)
Definition nested_args : Namespace :=
  {| args_seqfile := "data/reads.fa"; args_output := None;
     args_protein := false; args_ksize := 32 |}.


Definition tagged_graph : Recorder.graph :=
  {| Recorder.g_ksize := 32; Recorder.g_table_size := 500000000;
     Recorder.g_n_tables := 2; Recorder.g_tag_density := Some 200;
     Recorder.g_sequences := [] |}.

Definition half_graph : Recorder.graph :=
  {| Recorder.g_ksize := 32; Recorder.g_table_size := 500000000;
     Recorder.g_n_tables := 2; Recorder.g_tag_density := Some 200;
     Recorder.g_sequences := ["ACGTACGT"] |}.

Definition loaded_graph : Recorder.graph :=
  {| Recorder.g_ksize := 32; Recorder.g_table_size := 500000000;
     Recorder.g_n_tables := 2; Recorder.g_tag_density := Some 200;
     Recorder.g_sequences := ["ACGTACGT"; "TTGCA"] |}.

Definition built_index : Recorder.index :=
  {| Recorder.i_sketch_size := 20; Recorder.i_modulus := 9999999967;
     Recorder.i_protein := false; Recorder.i_graph := loaded_graph |}.

(** A process that holds the tagged graph and has printed and called
    nothing yet, as [load_and_tag] may find it. *)
Definition ready (d : gmap string Recorder.file) : process Recorder.env :=
  {| stdout := []; files := d : disk Recorder.env; ct := Some tagged_graph;
     nbhd_mh := None; calls := [] |}.

(** * Properties *)

Lemma no_divisor_from_sound fuel : forall d n,
  0 < d -> no_divisor_from fuel d n = true ->
  forall q, d <= q -> q * q <= n -> n mod q <> 0.
Proof.
  induction fuel as [|f IH]; simpl; intros d n Hd H q Hq Hqq.
  - apply Z.ltb_lt in H. nia.
  - destruct (n <? d * d) eqn:E.
    + apply Z.ltb_lt in E. nia.
    + destruct (n mod d =? 0) eqn:E2; [discriminate|].
      apply Z.eqb_neq in E2.
      destruct (Z.eq_dec q d) as [->|Hne]; [exact E2|].
      apply (IH (d + 1) n); [lia | exact H | lia | exact Hqq].
Qed.

Lemma small_divisor n :
  1 < n -> ~ prime n -> exists q, 2 <= q /\ q * q <= n /\ n mod q = 0.
Proof.
  intros Hn Hnp.
  destruct (not_prime_divide n Hn Hnp) as [a [[Ha1 Ha2] [b Hb]]].
  assert (Hb1 : 1 < b) by nia.
  destruct (Z_le_gt_dec (a * a) n) as [Hle|Hgt].
  - exists a. repeat split; [lia | exact Hle |].
    subst n. apply Z.mod_mul. lia.
  - exists b. repeat split; [lia | nia |].
    subst n. rewrite Z.mul_comm. apply Z.mod_mul. lia.
Qed.

Lemma is_prime_sound n : is_prime n = true -> prime n.
Proof.
  unfold is_prime. intros H.
  apply andb_true_iff in H as [H1 H2]. apply Z.ltb_lt in H1.
  destruct (prime_dec n) as [Hp|Hnp]; [exact Hp|].
  destruct (small_divisor n H1 Hnp) as [q [Hq [Hqq Hm]]].
  exfalso.
  exact (no_divisor_from_sound _ 2 n ltac:(lia) H2 q Hq Hqq Hm).
Qed.

Example basename_nested : basename "data/reads/ecoli.fa" = "ecoli.fa".
Proof. reflexivity. Qed.

Example basename_plain : basename "ecoli.fa" = "ecoli.fa".
Proof. reflexivity. Qed.

Example basename_trailing_slash : basename "data/" = "".
Proof. reflexivity. Qed.


(** ** The loop of [load_and_tag] *)

Ltac unfold_ops :=
  unfold ct_build_neighborhood_minhashes, nbhd_mh_save, ct_consume_and_tag,
    ct_set_tag_density, new_Countgraph, do_screed_open, print, write, log,
    get_ct, set_ct, get_nbhd_mh, set_nbhd_mh, lift, bind, ret, raise, sys_exit.

Ltac exec := unfold_ops; cbn.

Section Loop.
Context (E : Environment).

Lemma for_records_frame s : forall p : process E,
  files (snd (for_records E s p)) = files p /\
  nbhd_mh (snd (for_records E s p)) = nbhd_mh p /\
  forall status, fst (for_records E s p) <> Exited status.
Proof.
  induction s as [|r rest IH|e]; intros p; cbn.
  - repeat split; congruence.
  - exec. destruct (ct p) as [g|]; cbn; [|repeat split; congruence].
    destruct (consume_and_tag E (sequence r) g) as [e|g']; cbn;
      [repeat split; congruence|].
    match goal with |- context [for_records E rest ?q] =>
      destruct (IH q) as (Hf & Hn & Hx) end.
    rewrite Hf, Hn. repeat split; assumption.
  - repeat split; congruence.
Qed.

(** The loop hands the sequences to [consume_and_tag] in the order of the
    file; when it ends normally the file was read to its end and every
    record was handed over. *)
Lemma for_records_calls s : forall p : process E,
  exists seqs,
    calls (snd (for_records E s p)) = calls p ++ map CallConsumeAndTag seqs /\
    (fst (for_records E s p) = Returned tt ->
     stream_complete s = true /\ seqs = map sequence (stream_records s)).
Proof.
  induction s as [|r rest IH|e]; intros p; cbn.
  - exists []. cbn. rewrite app_nil_r. auto.
  - exec. destruct (ct p) as [g|]; cbn.
    + destruct (consume_and_tag E (sequence r) g) as [e|g']; cbn.
      * exists [sequence r]. split; [reflexivity | discriminate].
      * match goal with |- context [for_records E rest ?q] =>
          destruct (IH q) as (seqs & Hc & Hr) end.
        exists (sequence r :: seqs). cbn in Hc. rewrite Hc, <- app_assoc.
        split; [reflexivity|].
        intros H. destruct (Hr H) as [Hs ->]. auto.
    + exists [sequence r]. split; [reflexivity | discriminate].
  - exists []. cbn. rewrite app_nil_r. split; [reflexivity | discriminate].
Qed.

(** The loop prints nothing but the ['.' name] lines. *)
Lemma for_records_stdout s : forall (p : process E) line,
  In line (stdout (snd (for_records E s p))) ->
  In line (stdout p) \/ exists nm, line = join_space ["."; nm].
Proof.
  induction s as [|r rest IH|e]; intros p line; cbn; auto.
  exec.
  assert (Hdot : In line (stdout p ++ [join_space ["."; name r]]) ->
                 In line (stdout p) \/ exists nm, line = join_space ["."; nm]).
  { intros H. apply in_app_or in H as [H|[<-|[]]]; eauto. }
  destruct (ct p) as [g|]; cbn; [|exact Hdot].
  destruct (consume_and_tag E (sequence r) g) as [e|g']; cbn; [exact Hdot|].
  intros H. apply IH in H. cbn in H.
  destruct H as [H|H]; [exact (Hdot H) | right; exact H].
Qed.

(** The loop does not look at the disk. *)
Lemma for_records_disk s : forall (p1 p2 : process E),
  same_but_files p1 p2 ->
  fst (for_records E s p1) = fst (for_records E s p2) /\
  same_but_files (snd (for_records E s p1)) (snd (for_records E s p2)).
Proof.
  induction s as [|r rest IH|e]; intros p1 p2 (Ho & Hc & Hn & Hl); cbn.
  - repeat split; assumption.
  - exec. rewrite <- Hc. destruct (ct p1) as [g|]; cbn.
    + destruct (consume_and_tag E (sequence r) g) as [e|g']; cbn.
      * repeat split; cbn; congruence.
      * apply IH. repeat split; cbn; congruence.
    + repeat split; cbn; congruence.
  - repeat split; assumption.
Qed.

End Loop.

(** ** Running the script path by path *)

(** One goal per path through [main]: each library call is split into the
    case where it raises and the case where it returns; the loop is
    replaced by its outcome [o] and the process [q] it leaves, with the
    facts of the lemmas above. *)
Ltac split_call :=
  match goal with
  | |- context [for_records ?E ?s ?p] =>
      let o := fresh "o" in
      let q := fresh "q" in
      let Hloop := fresh "Hloop" in
      let seqs := fresh "seqs" in
      let Hcalls := fresh "Hcalls" in
      let Hdone := fresh "Hdone" in
      let Hfiles := fresh "Hfiles" in
      let Hidx := fresh "Hidx" in
      let Hexit := fresh "Hexit" in
      let Hout := fresh "Hout" in
      destruct (for_records_calls E s p) as (seqs & Hcalls & Hdone);
      destruct (for_records_frame E s p) as (Hfiles & Hidx & Hexit);
      pose proof (for_records_stdout E s p) as Hout;
      destruct (for_records E s p) as [o q] eqn:Hloop;
      cbn [fst snd] in Hcalls, Hdone, Hfiles, Hidx, Hexit, Hout;
      cbn [stdout files ct nbhd_mh calls] in Hcalls, Hfiles, Hidx, Hout;
      destruct o as [[]|?|?];
        [destruct (Hdone eq_refl) as [? ?]; clear Hdone; subst seqs
        |clear Hdone
        |exfalso; eapply Hexit; reflexivity]
  | |- context [match ?x with inl _ => _ | inr _ => _ end] =>
      destruct x eqn:?
  | |- context [match ct ?q with Some _ => _ | None => _ end] =>
      destruct (ct q) eqn:?
  | |- context [let '(_, _) := ?x in _] =>
      destruct x as [[?|] ?] eqn:?
  end; cbn.

Ltac use_loop_facts :=
  repeat match goal with
  | H : calls ?q = _ |- context [calls ?q] => rewrite H
  | H : files ?q = _ |- context [files ?q] => rewrite H
  | H : nbhd_mh ?q = _ |- context [nbhd_mh ?q] => rewrite H
  end;
  rewrite <- ?app_assoc; cbn.

Ltac run_paths :=
  unfold run, main, load_and_tag, parse_args; exec; repeat split_call;
  use_loop_facts.

Section Driver.
Context (E : Environment).

Lemma constructions_app l1 l2 :
  constructions (l1 ++ l2) = constructions l1 ++ constructions l2.
Proof.
  induction l1 as [|[] l1 IH]; cbn; rewrite ?IH; reflexivity.
Qed.

Lemma constructions_consume seqs :
  constructions (map CallConsumeAndTag seqs) = [].
Proof. induction seqs; cbn; auto. Qed.

Lemma builds_app l1 l2 : builds (l1 ++ l2) = builds l1 ++ builds l2.
Proof.
  induction l1 as [|[] l1 IH]; cbn; rewrite ?IH; reflexivity.
Qed.

Lemma builds_consume seqs : builds (map CallConsumeAndTag seqs) = [].
Proof. induction seqs; cbn; auto. Qed.

Lemma before_build_consume seqs l :
  before_build (map CallConsumeAndTag seqs ++ l) =
  map CallConsumeAndTag seqs ++ before_build l.
Proof. induction seqs; cbn; congruence. Qed.

Lemma after_build_consume seqs l :
  after_build (map CallConsumeAndTag seqs ++ l) = after_build l.
Proof. induction seqs; cbn; congruence. Qed.

Lemma consumed_consume seqs l :
  consumed (map CallConsumeAndTag seqs ++ l) = seqs ++ consumed l.
Proof. induction seqs; cbn; congruence. Qed.

Lemma saved_paths_consume seqs l :
  saved_paths (map CallConsumeAndTag seqs ++ l) = saved_paths l.
Proof. induction seqs; cbn; congruence. Qed.

Lemma in_builds n m b l : In (CallBuild n m b) l -> In (n, m, b) (builds l).
Proof.
  induction l as [|[] l IH]; cbn; try tauto; try (intros [H|H]; [discriminate|auto]).
  intros [H|H]; [inversion H; auto | auto].
Qed.

Lemma in_saved_paths path l : In (CallSave path) l <-> In path (saved_paths l).
Proof.
  induction l as [|[] l IH]; cbn; try tauto;
    try (rewrite <- IH; split; [intros [H|H]; [discriminate|auto] | auto]).
  rewrite <- IH. split; (intros [H|H]; [inversion H; auto | auto]).
Qed.

Ltac count_calls :=
  rewrite ?constructions_app, ?constructions_consume,
          ?builds_app, ?builds_consume; cbn.

Lemma consumed_only seqs : consumed (map CallConsumeAndTag seqs) = seqs.
Proof. induction seqs; cbn; congruence. Qed.

Lemma saved_paths_only seqs : saved_paths (map CallConsumeAndTag seqs) = [].
Proof. induction seqs; cbn; congruence. Qed.

Lemma before_build_only seqs :
  before_build (map CallConsumeAndTag seqs) = map CallConsumeAndTag seqs.
Proof. induction seqs; cbn; congruence. Qed.

Ltac read_calls :=
  rewrite ?before_build_consume, ?after_build_consume, ?consumed_consume,
          ?saved_paths_consume, ?consumed_only, ?saved_paths_only,
          ?before_build_only; cbn.


(** A run calls [build_neighborhood_minhashes] at most once, and then with
    20, 9999999967 and [args.protein]. *)
Lemma run_builds g argv d x :
  In x (builds (calls (snd (run E g argv d)))) ->
  exists c, argv = Supplied c /\ x = (20, 9999999967, cl_protein c).
Proof.
  destruct argv as [| |c]; [cbn; tauto ..|].
  run_paths; count_calls; try tauto.
  all: intros [<-|[]]; eauto.
Qed.

(** C7. Whenever the script calls [build_neighborhood_minhashes], the hash
    modulus it passes is 9999999967, and 9999999967 is a prime number. *)
Theorem C7_hash_modulus_fixed_prime :
  (forall g argv d n m b,
     In (n, m, b) (builds (calls (snd (run E g argv d)))) -> m = 9999999967) /\
  prime 9999999967.
Proof.
  split.
  - intros g argv d n m b H.
    apply run_builds in H as (c & _ & H). inversion H. reflexivity.
  - apply is_prime_sound. vm_compute. reflexivity.
Qed.

(** C9. Whenever the script calls [build_neighborhood_minhashes], the
    sketch size it passes is 20, whatever the command line; and the run is
    the same whatever value the module binds to [MH_LEN]. *)
Theorem C9_sketch_size_20_MH_LEN_unused :
  (forall g argv d n m b,
     In (n, m, b) (builds (calls (snd (run E g argv d)))) -> n = 20) /\
  (forall v g argv d, run E (with_MH_LEN v g) argv d = run E g argv d).
Proof.
  split.
  - intros g argv d n m b H.
    apply run_builds in H as (c & _ & H). inversion H. reflexivity.
  - intros v g argv d. destruct argv; reflexivity.
Qed.

(** C2. When the script calls [build_neighborhood_minhashes], the input
    file was opened and read to its end, every record of it was handed to
    [consume_and_tag] before that call, in the order of the file, and no
    call that changes the graph follows. *)
Theorem C2_ingestion_before_build g argv d n m b :
  let l := calls (snd (run E g argv d)) in
  In (CallBuild n m b) l ->
  exists c s,
    argv = Supplied c /\
    screed_open E (cl_seqfile c) d = inr s /\
    stream_complete s = true /\
    consumed (before_build l) = map sequence (stream_records s) /\
    l = before_build l ++ CallBuild n m b :: after_build l /\
    forallb (fun x => negb (mutates_graph x)) (after_build l) = true.
Proof.
  cbn zeta. intros H.
  assert (Hb := in_builds _ _ _ _ H).
  apply run_builds in Hb as (c & -> & Hb). inversion Hb; subst n m b; clear Hb.
  apply in_builds in H. revert H.
  run_paths; count_calls; try tauto; intros _; read_calls.
  all: eexists _, _; rewrite !app_nil_r; repeat split; eauto.
Qed.

(** The tag density is set to 200 on every run that sets one. *)
Lemma run_tag_density g argv d x :
  In (CallSetTagDensity x) (calls (snd (run E g argv d))) -> x = 200.
Proof.
  destruct argv as [| |c]; [cbn; tauto ..|].
  assert (Hc : forall seqs, ~ In (CallSetTagDensity x) (map CallConsumeAndTag seqs)).
  { intros seqs. induction seqs; cbn; [tauto | intros [?|?]; [discriminate | auto]]. }
  run_paths; rewrite ?in_app_iff; cbn; intros Hin;
    repeat match goal with
    | H : _ \/ _ |- _ => destruct H as [H|H]
    | H : False |- _ => destruct H
    | H : CallSetTagDensity _ = CallSetTagDensity _ |- _ => inversion H; reflexivity
    | H : _ = CallSetTagDensity _ |- _ => discriminate H
    | H : In _ (map CallConsumeAndTag _) |- _ => destruct (Hc _ H)
    end.
Qed.

(** Two runs that differ only in [--protein] make the same calls up to
    [build_neighborhood_minhashes] and leave the same graph. *)
Lemma run_before_build_protein g c d b1 b2 :
  let r1 := run E g (Supplied (with_protein b1 c)) d in
  let r2 := run E g (Supplied (with_protein b2 c)) d in
  before_build (calls (snd r1)) = before_build (calls (snd r2)) /\
  ct (snd r1) = ct (snd r2).
Proof.
  cbn zeta. split.
  - unfold run, main, output_path; cbn; run_paths; read_calls; reflexivity.
  - unfold run, main, output_path; cbn; run_paths; reflexivity.
Qed.

(** C1, as the script has it. The disk is as it was unless [save] was
    called.  [save] is called only after the input file was read to its end,
    every record was consumed and [build_neighborhood_minhashes] returned
    the index; it is the last call, and the path it is given is the output
    path itself.  When the input cannot be opened or breaks off, [save] is
    not called and the disk is as it was. *)
Theorem C1_save_only_after_pipeline g argv d :
  let r := run E g argv d in
  (saved_paths (calls (snd r)) = [] -> files (snd r) = d) /\
  (forall path, In path (saved_paths (calls (snd r))) ->
     exists c s i pre,
       argv = Supplied c /\
       path = output_path (namespace_of g c) /\
       screed_open E (cl_seqfile c) d = inr s /\
       stream_complete s = true /\
       consumed (calls (snd r)) = map sequence (stream_records s) /\
       nbhd_mh (snd r) = Some i /\
       files (snd r) = snd (save E i path d) /\
       calls (snd r) =
         pre ++ [CallBuild 20 9999999967 (cl_protein c); CallSave path]) /\
  (forall c, argv = Supplied c ->
     match screed_open E (cl_seqfile c) d with
     | inl _ => True
     | inr s => stream_complete s = false
     end ->
     saved_paths (calls (snd r)) = [] /\ files (snd r) = d).
Proof.
  cbn zeta. destruct argv as [| |c].
  1,2: cbn; repeat split; try tauto; intros; discriminate.
  split; [|split].
  - run_paths; read_calls; try reflexivity; discriminate.
  - intros path. run_paths; read_calls; try tauto.
    all: intros [<-|[]]; eexists c, _, _, (_ :: _ :: _ :: _).
    all: rewrite ?app_nil_r; repeat split; try eassumption; try reflexivity.
    all: match goal with
         | Hf : files ?q = _, H : save _ _ _ (files ?q) = _ |- _ =>
             rewrite Hf in H; rewrite H
         end; reflexivity.
  - intros c' Hc. inversion Hc; subst c'; clear Hc.
    run_paths; read_calls; try (split; reflexivity); try tauto.
    all: congruence.
Qed.




(** The path handed to [save] is [outfile]. *)
Lemma run_saved_path g c d path :
  In path (saved_paths (calls (snd (run E g (Supplied c) d)))) ->
  path = output_path (namespace_of g c).
Proof.
  run_paths; read_calls; try tauto.
  all: intros [<-|[]]; reflexivity.
Qed.

(** C4, as the script has it. Without [-o] the output path is the
    basename of the input path followed by [.mhi]; with [-o] and a
    non-empty value it is that value; with [-o] and the empty string it is
    again the default.  The path handed to [save] is this output path. *)
Theorem C4_output_path_default g c :
  let default := (basename (cl_seqfile c) ++ ".mhi")%string in
  let outfile := output_path (namespace_of g c) in
  (cl_output c = None -> outfile = default) /\
  (forall o, cl_output c = Some o -> o <> "" -> outfile = o) /\
  (cl_output c = Some "" -> outfile = default) /\
  (forall d path,
     In path (saved_paths (calls (snd (run E g (Supplied c) d)))) ->
     path = outfile).
Proof.
  cbn zeta. split; [|split; [|split]].
  - unfold output_path, namespace_of; cbn. intros ->. reflexivity.
  - unfold output_path, namespace_of; cbn. intros o -> Ho. cbn.
    destruct (String.eqb_spec o ""); [contradiction | reflexivity].
  - unfold output_path, namespace_of; cbn. intros ->. reflexivity.
  - intros d path H. apply run_saved_path in H. exact H.
Qed.

(** X13. A run looks at the disk only through [screed.open] on the input
    path and through [save]: on two disks where [screed.open] gives the
    same for the input path, whatever else they hold, two runs with the
    same arguments leave the same graph, build the same index and make the
    same calls; when they also end the same way they have printed the same
    lines. *)
Theorem run_ignores_rest_of_disk g argv d1 d2 :
  (forall c, argv = Supplied c ->
     screed_open E (cl_seqfile c) d1 = screed_open E (cl_seqfile c) d2) ->
  let r1 := run E g argv d1 in
  let r2 := run E g argv d2 in
  ct (snd r1) = ct (snd r2) /\
  nbhd_mh (snd r1) = nbhd_mh (snd r2) /\
  calls (snd r1) = calls (snd r2) /\
  (fst r1 = fst r2 -> stdout (snd r1) = stdout (snd r2)).
Proof.
  intros Hsame. cbn zeta. destruct argv as [| |c]; [cbn; auto ..|].
  specialize (Hsame c eq_refl).
  unfold run, main, load_and_tag, parse_args. exec.
  destruct (Countgraph E _ _ _) as [e|g0]; cbn; [auto|].
  destruct (_set_tag_density E _ _) as [e|g1]; cbn; [auto|].
  rewrite Hsame.
  destruct (screed_open E (cl_seqfile c) d2) as [e|s]; cbn; [auto|].
  match goal with
  | |- context [for_records E s ?p1] =>
      match goal with
      | |- context [for_records E s ?p2] =>
          lazymatch p1 with
          | p2 => fail
          | _ => destruct (for_records_disk E s p1 p2) as (Ho & Hq);
                 [repeat split|];
                 destruct (for_records E s p1) as [o1 q1];
                 destruct (for_records E s p2) as [o2 q2]
          end
      end
  end.
  cbn [fst snd] in Ho, Hq. subst o2. destruct Hq as (Hout & Hct & Hidx & Hcalls).
  destruct o1 as [[]|e|status]; cbn; [|auto ..].
  rewrite Hct, Hcalls, Hout.
  destruct (ct q2) as [g2|]; cbn; [|auto].
  destruct (build_neighborhood_minhashes E _ _ _ g2) as [e|i]; cbn; [auto|].
  destruct (save E i _ (files q1)) as [[e1|] d1'];
    destruct (save E i _ (files q2)) as [[e2|] d2']; cbn;
    repeat split; auto; discriminate.
Qed.

End Driver.

(** * More on the functions of the script *)

(** ** [os.path.basename] *)

Lemma occurs_append c a b :
  occurs c (a ++ b)%string = occurs c a || occurs c b.
Proof.
  induction a as [|x a IH]; [reflexivity|].
  change (String x a ++ b)%string with (String x (a ++ b)%string).
  cbn [occurs]. rewrite IH, orb_assoc. reflexivity.
Qed.

(** [rfind_from] either finds no [c] and gives back [last], or gives the
    position of the last [c]: what stands before it and the [c] itself make
    up the string together with the rest, and the rest has no [c]. *)
Lemma rfind_from_spec c s : forall i last,
  (occurs c s = false /\ rfind_from c s i last = last) \/
  (exists n pre,
     rfind_from c s i last = i + Z.of_nat n /\
     s = ((pre ++ String c "") ++ drop_chars (S n) s)%string /\
     occurs c (drop_chars (S n) s) = false).
Proof.
  induction s as [|a r IH]; intros i last; cbn [rfind_from occurs].
  - left. auto.
  - destruct (IH (i + 1) (if Ascii.eqb a c then i else last))
      as [[Hno Hr]|(n & pre & Hr & Hs & Hrest)].
    + destruct (Ascii.eqb a c) eqn:Hac.
      * right. exists 0%nat, "". apply Ascii.eqb_eq in Hac. subst a. cbn.
        rewrite Hr. repeat split; auto. lia.
      * left. cbn. rewrite Hr. auto.
    + right. exists (S n), (String a pre).
      change (drop_chars (S (S n)) (String a r)) with (drop_chars (S n) r).
      repeat split.
      * rewrite Hr. lia.
      * change (String a r =
                String a ((pre ++ String c "") ++ drop_chars (S n) r)%string).
        f_equal. exact Hs.
      * exact Hrest.
Qed.

(** [basename] splits a path after its last [/]: it has no [/] itself, and
    what it leaves out is empty or ends in [/]. *)
Lemma basename_spec p :
  occurs "/" (basename p) = false /\
  exists d, p = (d ++ basename p)%string /\
            (d = "" \/ exists pre, d = (pre ++ "/")%string).
Proof.
  unfold basename, rfind.
  destruct (rfind_from_spec "/" p 0 (-1))
    as [[Hno ->]|(n & pre & -> & Hs & Hrest)].
  - cbn. split; [exact Hno|]. exists "". auto.
  - replace (Z.to_nat (0 + Z.of_nat n + 1)) with (S n) by lia.
    split; [exact Hrest|]. exists (pre ++ "/")%string. eauto.
Qed.

Lemma append_assoc (a b c : string) :
  ((a ++ b) ++ c = a ++ (b ++ c))%string.
Proof.
  induction a as [|x a IH]; [reflexivity|].
  change (String x ((a ++ b) ++ c)%string = String x (a ++ (b ++ c))%string).
  f_equal. exact IH.
Qed.

Lemma append_longer (a b : string) : (a ++ b)%string = a -> b = "".
Proof.
  induction a as [|x a IH]; [auto|].
  change (String x (a ++ b)%string = String x a -> b = "").
  intros H. inversion H. auto.
Qed.

(** ** The default output path, lines 38-40 *)

Lemma output_path_default (args : Namespace) :
  truthy (args_output args) = false ->
  output_path args = (basename (args_seqfile args) ++ ".mhi")%string.
Proof.
  intros Hout. unfold output_path.
  destruct (args_output args) as [o|]; [|reflexivity].
  rewrite Hout. reflexivity.
Qed.

(** X1. When [-o] is left out or empty, the output path is the input path
    followed by [.mhi] with everything up to and including the last [/]
    removed: it has no [/] itself, and the part removed is empty or ends in
    [/].  So the index goes to the current directory wherever the input
    file is. *)
Theorem default_output_has_no_directory (args : Namespace) :
  truthy (args_output args) = false ->
  occurs "/" (output_path args) = false /\
  exists dir,
    (args_seqfile args ++ ".mhi" = dir ++ output_path args)%string /\
    (dir = "" \/ exists pre, dir = (pre ++ "/")%string).
Proof.
  intros Hout.
  destruct (basename_spec (args_seqfile args)) as (Hno & dir & Hsplit & Hdir).
  rewrite (output_path_default args Hout). split.
  - rewrite occurs_append, Hno. reflexivity.
  - exists dir. split; [|exact Hdir].
    rewrite <- append_assoc, <- Hsplit. reflexivity.
Qed.

(** X2. When [-o] is left out or empty, the output path differs from the
    input path: the default never names the file that is read. *)
Theorem default_output_is_not_the_input (args : Namespace) :
  truthy (args_output args) = false ->
  output_path args <> args_seqfile args.
Proof.
  intros Hout Heq.
  rewrite (output_path_default args Hout) in Heq.
  destruct (basename_spec (args_seqfile args)) as (Hno & dir & Hsplit & Hdir).
  destruct Hdir as [->|[pre ->]].
  - change (args_seqfile args = basename (args_seqfile args)) in Hsplit.
    rewrite <- Hsplit in Heq. apply append_longer in Heq. discriminate.
  - assert (H : occurs "/" (args_seqfile args) = true).
    { rewrite Hsplit, !occurs_append. cbn. rewrite orb_true_r. reflexivity. }
    rewrite <- Heq, occurs_append, Hno in H. discriminate.
Qed.

(** ** [load_and_tag], lines 22-27 *)

Section Ingestion.
Context (E : Environment).

(** The loop has printed the progress lines of, and called
    [consume_and_tag] on, the same initial segment of the records. *)
Lemma for_records_progress s : forall p : process E,
  exists n,
    stdout (snd (for_records E s p)) =
      stdout p ++ map progress_line (take n (stream_records s)) /\
    calls (snd (for_records E s p)) =
      calls p ++ map CallConsumeAndTag (map sequence (take n (stream_records s))) /\
    (fst (for_records E s p) = Returned tt ->
     stream_complete s = true /\ take n (stream_records s) = stream_records s).
Proof.
  induction s as [|r rest IH|e]; intros p.
  - exists 0%nat. cbn. rewrite !app_nil_r. auto.
  - cbn [for_records stream_records stream_complete]. exec.
    destruct (ct p) as [g|]; cbn.
    + destruct (consume_and_tag E (sequence r) g) as [e|g']; cbn.
      * exists 1%nat. cbn. rewrite take_0. cbn.
        repeat split; discriminate.
      * match goal with |- context [for_records E rest ?q] =>
          destruct (IH q) as (n & Ho & Hc & Hr) end.
        cbn in Ho, Hc. exists (S n). cbn.
        rewrite Ho, Hc, <- !app_assoc. repeat split.
        -- apply Hr; assumption.
        -- f_equal. apply Hr; assumption.
    + exists 1%nat. cbn. rewrite take_0. cbn. repeat split; discriminate.
  - exists 0%nat. cbn. rewrite !app_nil_r. repeat split; discriminate.
Qed.

(** The graph the loop leaves is the graph it found after consuming an
    initial segment of the sequences; all of them when the loop returns. *)
Lemma for_records_graph s : forall (p : process E) g,
  ct p = Some g ->
  exists m g',
    ct (snd (for_records E s p)) = Some g' /\
    consume_all E (map sequence (take m (stream_records s))) g = inr g' /\
    (fst (for_records E s p) = Returned tt ->
     take m (stream_records s) = stream_records s).
Proof.
  induction s as [|r rest IH|e]; intros p g Hct.
  - exists 0%nat, g. cbn. auto.
  - cbn [for_records stream_records]. exec. rewrite Hct. cbn.
    destruct (consume_and_tag E (sequence r) g) as [e|g1] eqn:Hcons; cbn.
    + exists 0%nat, g. cbn. repeat split; try assumption; discriminate.
    + match goal with |- context [for_records E rest ?q] =>
        destruct (IH q g1 eq_refl) as (m & g' & Hg & Hall & Hr) end.
      exists (S m), g'. cbn. rewrite Hcons. repeat split; auto.
      intros H. f_equal. auto.
  - exists 0%nat, g. cbn. repeat split; try assumption; discriminate.
Qed.


End Ingestion.

Section LoadAndTag.
Context (E : Environment).






(** X6. [load_and_tag] never writes to the disk, never touches the
    index and never ends the process with [sys.exit]; the graph it leaves
    is the graph it was given after consuming an initial segment of the
    file's sequences. *)
Theorem load_and_tag_frame (p : process E) filename g :
  ct p = Some g ->
  let r := load_and_tag E filename p in
  files (snd r) = files p /\
  nbhd_mh (snd r) = nbhd_mh p /\
  match fst r with Exited _ => False | _ => True end /\
  exists m g',
    ct (snd r) = Some g' /\
    consume_all E
      (map sequence (take m (file_records E filename (files p)))) g = inr g'.
Proof.
  intros Hct. cbn zeta. unfold load_and_tag, do_screed_open, file_records. exec.
  destruct (screed_open E filename (files p)) as [e|s]; cbn.
  - repeat split; auto. exists 0%nat, g. auto.
  - match goal with |- context [for_records E s ?q] =>
      destruct (for_records_frame E s q) as (Hf & Hn & Hx);
      destruct (for_records_graph E s q g Hct) as (m & g' & Hg & Hall & _);
      destruct (for_records E s q) as [o q'] eqn:Hloop
    end.
    cbn [fst snd files nbhd_mh] in *.
    destruct o as [[]|e|status]; cbn; repeat split; eauto.
    exact (Hx status eq_refl).
Qed.


End LoadAndTag.

(** ** [main], lines 29-56 *)

Lemma prefix_take_map {A B} (f : A -> B) n (l : list A) pre post :
  (pre ++ map f (take n l)) `prefix_of` (pre ++ map f l ++ post).
Proof.
  exists (map f (drop n l) ++ post).
  rewrite <- (take_drop n l) at 1.
  rewrite map_app, <- !app_assoc. reflexivity.
Qed.

(** As [split_call], with what the loop leaves described by initial
    segments of the records. *)
Ltac split_loop :=
  match goal with
  | |- context [for_records ?E ?s ?q] =>
      let g := lazymatch eval cbn in (ct q) with Some ?g => g end in
      let n := fresh "n" in
      let m := fresh "m" in
      let g' := fresh "g'" in
      let o := fresh "o" in
      let q' := fresh "q'" in
      let Hout := fresh "Hout" in
      let Hcalls := fresh "Hcalls" in
      let Hret := fresh "Hret" in
      let Hct := fresh "Hct" in
      let Hall := fresh "Hall" in
      let Hm := fresh "Hm" in
      let Hfiles := fresh "Hfiles" in
      let Hidx := fresh "Hidx" in
      let Hexit := fresh "Hexit" in
      destruct (for_records_progress E s q) as (n & Hout & Hcalls & Hret);
      destruct (for_records_graph E s q g eq_refl) as (m & g' & Hct & Hall & Hm);
      destruct (for_records_frame E s q) as (Hfiles & Hidx & Hexit);
      destruct (for_records E s q) as [o q'];
      cbn [fst snd stdout files ct nbhd_mh calls] in *;
      destruct o as [[]|?|?];
        [destruct (Hret eq_refl) as [? Hret']; rewrite Hret' in *;
         rewrite (Hm eq_refl) in *; clear Hret Hm
        |clear Hret Hm
        |exfalso; eapply Hexit; reflexivity];
      cbn; rewrite ?Hct, ?Hfiles, ?Hidx, ?Hout, ?Hcalls; cbn
  end.

Section MainRun.
Context (E : Environment).

(** The calls and the lines of a run are initial segments of those of a
    run that goes through. *)
Lemma run_prefix g c d :
  let args := namespace_of g c in
  let rs := file_records E (cl_seqfile c) d in
  let r := run E g (Supplied c) d in
  calls (snd r) `prefix_of` script_calls args (map sequence rs) /\
  stdout (snd r) `prefix_of` script_output args rs.
Proof.
  cbn zeta. unfold file_records, script_calls, script_output.
  unfold run, main, load_and_tag, parse_args, do_screed_open. exec.
  destruct (Countgraph E _ _ _) as [e|g0]; cbn.
  { split; eexists; reflexivity. }
  destruct (_set_tag_density E _ _) as [e|g1]; cbn.
  { split; eexists; reflexivity. }
  destruct (screed_open E (cl_seqfile c) d) as [e|s]; cbn.
  { split; eexists; reflexivity. }
  split_loop.
  - destruct (build_neighborhood_minhashes E _ _ _ _) as [e|i]; cbn.
    { split; eexists; cbn; rewrite <- ?app_assoc; cbn; reflexivity. }
    destruct (save E i _ d) as [[e|] d']; cbn.
    all: split; eexists; cbn; rewrite <- ?app_assoc; cbn; reflexivity.
  - rewrite !map_map. split.
    + exact (prefix_take_map (fun r => CallConsumeAndTag (sequence r)) n
               (stream_records s) [_; _; _] [_; _]).
    + exact (prefix_take_map progress_line n (stream_records s)
               [_; _; _] [_; _; _]).
Qed.

(** X7. Every run makes an initial segment of the calls of a run that
    goes through (construct the graph, set the tag density, open the input,
    consume the file's sequences in order, build, save) and prints an
    initial segment of its lines: no step is skipped, repeated or taken out
    of order, whichever step fails. *)
Theorem run_is_initial_segment g c d :
  let args := namespace_of g c in
  let rs := file_records E (cl_seqfile c) d in
  let r := run E g (Supplied c) d in
  calls (snd r) `prefix_of` script_calls args (map sequence rs) /\
  stdout (snd r) `prefix_of` script_output args rs.
Proof. exact (run_prefix g c d). Qed.


(** X9. Whenever a run leaves an index, it leaves a graph too, and the
    index is what [build_neighborhood_minhashes] returned for that graph
    with sketch size 20, modulus 9999999967 and the [--protein] flag. *)
Theorem run_index_built_from_graph g c d i :
  nbhd_mh (snd (run E g (Supplied c) d)) = Some i ->
  exists x,
    ct (snd (run E g (Supplied c) d)) = Some x /\
    build_neighborhood_minhashes E 20 9999999967 (cl_protein c) x = inr i.
Proof.
  unfold run, main, load_and_tag, parse_args, do_screed_open. exec.
  destruct (Countgraph E _ _ _) as [e|g0]; cbn; [discriminate|].
  destruct (_set_tag_density E _ _) as [e|g1]; cbn; [discriminate|].
  destruct (screed_open E (cl_seqfile c) d) as [e|s]; cbn; [discriminate|].
  split_loop; [|discriminate].
  destruct (build_neighborhood_minhashes E _ _ _ _) as [e|j] eqn:Hbuild; cbn;
    [discriminate|].
  destruct (save E j _ d) as [[e|] d']; cbn;
    intros Hi; inversion Hi; subst j; eauto.
Qed.

(** X10. Whenever a run leaves a graph, it is the constructed graph
    itself (when setting the tag density failed), or the constructed graph
    with tag density 200 after consuming an initial segment of the file's
    sequences in file order. *)
Theorem run_graph_consumed_prefix g c d x :
  ct (snd (run E g (Supplied c) d)) = Some x ->
  exists g0,
    Countgraph E (args_ksize (namespace_of g c)) 500000000 2 = inr g0 /\
    ((x = g0 /\ exists e, _set_tag_density E 200 g0 = inl e) \/
     exists g1 m,
       _set_tag_density E 200 g0 = inr g1 /\
       consume_all E
         (map sequence (take m (file_records E (cl_seqfile c) d))) g1 = inr x).
Proof.
  unfold file_records, namespace_of. cbn.
  unfold run, main, load_and_tag, parse_args, do_screed_open. exec.
  destruct (Countgraph E _ _ _) as [e|g0]; cbn; [discriminate|].
  destruct (_set_tag_density E _ _) as [e|g1] eqn:Hdensity; cbn.
  { intros H; inversion H; subst x. exists g0. split; [reflexivity|].
    left. eauto. }
  destruct (screed_open E (cl_seqfile c) d) as [e|s]; cbn.
  { intros H; inversion H; subst x. exists g0. split; [reflexivity|].
    right. exists g1, 0%nat. auto. }
  split_loop.
  - assert (Hfull : forall y, Some g' = Some y ->
                 consume_all E
                   (map sequence
                      (take (length (stream_records s)) (stream_records s)))
                   g1 = inr y).
    { intros y Hy; inversion Hy; subst y. rewrite take_ge by lia. exact Hall. }
    destruct (build_neighborhood_minhashes E _ _ _ _) as [e|j]; cbn;
      [|destruct (save E j _ _) as [[e|] d']; cbn];
      intros Hx; apply Hfull in Hx; exists g0;
      (split; [reflexivity|]); right; eauto.
  - intros Hx; inversion Hx; subst x. exists g0. split; [reflexivity|].
    right. exists g1, m. auto.
Qed.

(** X12. A run returns only when every step went through: the graph was
    constructed, the tag density set, the file opened and read to its end,
    every sequence consumed, the index built and saved. *)
Theorem run_returns_only_if_every_step_does g c d :
  fst (run E g (Supplied c) d) = Returned tt ->
  exists g0 g1 s g2 i d',
    Countgraph E (args_ksize (namespace_of g c)) 500000000 2 = inr g0 /\
    _set_tag_density E 200 g0 = inr g1 /\
    screed_open E (cl_seqfile c) d = inr s /\
    stream_complete s = true /\
    consume_all E (map sequence (stream_records s)) g1 = inr g2 /\
    build_neighborhood_minhashes E 20 9999999967 (cl_protein c) g2 = inr i /\
    save E i (output_path (namespace_of g c)) d = (None, d').
Proof.
  unfold namespace_of. cbn.
  unfold run, main, load_and_tag, parse_args, do_screed_open. exec.
  destruct (Countgraph E _ _ _) as [e|g0]; cbn; [discriminate|].
  destruct (_set_tag_density E _ _) as [e|g1] eqn:Hdensity; cbn;
    [discriminate|].
  destruct (screed_open E (cl_seqfile c) d) as [e|s]; cbn; [discriminate|].
  split_loop; [|discriminate].
  destruct (build_neighborhood_minhashes E _ _ _ _) as [e|j] eqn:Hbuild; cbn;
    [discriminate|].
  destruct (save E j _ d) as [[e|] d'] eqn:Hsave; cbn; [discriminate|].
  intros _. exists g0, g1, s, g', j, d'. repeat split; assumption.
Qed.

End MainRun.

(** ** The graph of a run, the [--protein] flag and the exit status *)

Section Pipeline.
Context (E : Environment).




(** C10. Two runs that differ only in [--protein] make the same calls up
    to [build_neighborhood_minhashes] (the same construction, the same tag
    density 200, the same [consume_and_tag] calls in the same order) and
    leave the same graph; the flag is the third argument of
    [build_neighborhood_minhashes] and shows nowhere else: whatever the
    flag is, the calls of the run are an initial segment of one list in
    which only the build call carries it, followed by [save] on the output
    path that does not depend on it, and the lines printed are an initial
    segment of one list that does not depend on it. *)
Theorem C10_protein_flag_only_reaches_build g c d b1 b2 :
  let r1 := run E g (Supplied (with_protein b1 c)) d in
  let r2 := run E g (Supplied (with_protein b2 c)) d in
  before_build (calls (snd r1)) = before_build (calls (snd r2)) /\
  ct (snd r1) = ct (snd r2) /\
  (forall x, In (CallSetTagDensity x) (calls (snd r1)) -> x = 200) /\
  (forall n m b, In (n, m, b) (builds (calls (snd r1))) -> b = b1) /\
  (forall n m b, In (n, m, b) (builds (calls (snd r2))) -> b = b2) /\
  (forall b,
     let r := run E g (Supplied (with_protein b c)) d in
     let rs := file_records E (cl_seqfile c) d in
     calls (snd r) `prefix_of`
       [CallCountgraph (args_ksize (namespace_of g c)) 500000000 2;
        CallSetTagDensity 200;
        CallScreedOpen (cl_seqfile c)]
       ++ map CallConsumeAndTag (map sequence rs)
       ++ [CallBuild 20 9999999967 b;
           CallSave (output_path (namespace_of g c))] /\
     stdout (snd r) `prefix_of` script_output (namespace_of g c) rs).
Proof.
  cbn zeta.
  destruct (run_before_build_protein E g c d b1 b2) as [Hcalls Hct].
  split; [exact Hcalls|]. split; [exact Hct|].
  split; [apply run_tag_density|]. split; [|split].
  - intros n m b H. apply run_builds in H as (c' & Hc & H).
    inversion Hc; subst c'. inversion H. reflexivity.
  - intros n m b H. apply run_builds in H as (c' & Hc & H).
    inversion Hc; subst c'. inversion H. reflexivity.
  - intros b. exact (run_prefix E g (with_protein b c) d).
Qed.



End Pipeline.

(** * The script on concrete inputs *)

Import Recorder.

(** C1 fails as stated: on [mhi-compute.py reads.fa] the one path handed
    to [save] is the output path [reads.fa.mhi] itself, not a temporary
    path that is renamed afterwards. *)
Lemma C1_save_goes_to_output_path :
  saved_paths (calls (snd (run_on (Supplied plain) disk0))) = ["reads.fa.mhi"] /\
  output_path (namespace_of script_globals plain) = "reads.fa.mhi" /\
  saves_elsewhere (output_path (namespace_of script_globals plain))
    (calls (snd (run_on (Supplied plain) disk0))) = false.
Proof. vm_compute. auto. Qed.

(** When reading [reads.fa] breaks off after one record, nothing is saved
    and the disk is as it was. *)
Lemma C1_witness :
  saved_paths (calls (snd (run_on (Supplied plain) disk_broken))) = [] /\
  files (snd (run_on (Supplied plain) disk_broken)) = disk_broken.
Proof.
  apply (proj2 (proj2 (C1_save_only_after_pipeline env script_globals
                         (Supplied plain) disk_broken)) plain eq_refl).
  vm_compute. reflexivity.
Defined.

Lemma C2_witness :
  In (CallBuild 20 9999999967 false) (calls (snd (run_on (Supplied plain) disk0))) /\
  exists c s,
    Supplied plain = Supplied c /\
    screed_open env (cl_seqfile c) disk0 = inr s /\
    stream_complete s = true /\
    consumed (before_build (calls (snd (run_on (Supplied plain) disk0)))) =
      map sequence (stream_records s) /\
    calls (snd (run_on (Supplied plain) disk0)) =
      before_build (calls (snd (run_on (Supplied plain) disk0))) ++
      CallBuild 20 9999999967 false ::
      after_build (calls (snd (run_on (Supplied plain) disk0))) /\
    forallb (fun x => negb (mutates_graph x))
      (after_build (calls (snd (run_on (Supplied plain) disk0)))) = true.
Proof.
  assert (H : In (CallBuild 20 9999999967 false)
                (calls (snd (run_on (Supplied plain) disk0)))).
  { vm_compute. tauto. }
  split; [exact H|].
  exact (C2_ingestion_before_build env script_globals (Supplied plain) disk0
           20 9999999967 false H).
Defined.

(** C4 fails as stated: on [mhi-compute.py reads.fa -o ''] the path
    provided is the empty string, and the index is saved to
    [reads.fa.mhi]. *)
Lemma C4_empty_output_not_used :
  cl_output empty_output = Some "" /\
  output_path (namespace_of script_globals empty_output) = "reads.fa.mhi" /\
  saved_paths (calls (snd (run_on (Supplied empty_output) disk0))) = ["reads.fa.mhi"].
Proof. vm_compute. auto. Qed.

Lemma C4_witness :
  cl_output full = Some "out/index.mhi" /\
  output_path (namespace_of script_globals full) = "out/index.mhi".
Proof.
  split; [reflexivity|].
  apply (proj1 (proj2 (C4_output_path_default env script_globals full))
           "out/index.mhi" eq_refl).
  discriminate.
Defined.


Lemma C7_witness :
  In (20, 9999999967, true)
     (builds (calls (snd (run_on (Supplied full)
        {[ "data/reads.fa" := SequenceFile two_reads ]})))) /\
  9999999967 = 9999999967.
Proof.
  assert (H : In (20, 9999999967, true)
     (builds (calls (snd (run_on (Supplied full)
        {[ "data/reads.fa" := SequenceFile two_reads ]}))))).
  { vm_compute. tauto. }
  split; [exact H|].
  exact (proj1 (C7_hash_modulus_fixed_prime env) script_globals (Supplied full)
           _ 20 9999999967 true H).
Defined.



Lemma C9_witness :
  In (20, 9999999967, false)
     (builds (calls (snd (run_on (Supplied plain) disk0)))) /\
  20 = 20.
Proof.
  assert (H : In (20, 9999999967, false)
     (builds (calls (snd (run_on (Supplied plain) disk0))))).
  { vm_compute. tauto. }
  split; [exact H|].
  exact (proj1 (C9_sketch_size_20_MH_LEN_unused env) script_globals
           (Supplied plain) disk0 20 9999999967 false H).
Defined.

(** ** The default output path *)

Lemma default_output_has_no_directory_witness :
  truthy (args_output nested_args) = false /\
  occurs "/" (output_path nested_args) = false /\
  exists dir,
    (args_seqfile nested_args ++ ".mhi" = dir ++ output_path nested_args)%string /\
    (dir = "" \/ exists pre, dir = (pre ++ "/")%string).
Proof.
  split; [reflexivity|].
  apply (default_output_has_no_directory nested_args). reflexivity.
Defined.

Lemma default_output_is_not_the_input_witness :
  truthy (args_output nested_args) = false /\
  output_path nested_args <> args_seqfile nested_args.
Proof.
  split; [reflexivity|].
  apply (default_output_is_not_the_input nested_args). reflexivity.
Defined.

(** ** [load_and_tag] on the two reads *)



Lemma load_and_tag_frame_witness :
  ct (ready disk_broken) = Some tagged_graph /\
  let r := load_and_tag env "reads.fa" (ready disk_broken) in
  files (snd r) = files (ready disk_broken) /\
  nbhd_mh (snd r) = nbhd_mh (ready disk_broken) /\
  match fst r with Exited _ => False | _ => True end /\
  exists m g',
    ct (snd r) = Some g' /\
    consume_all env
      (map sequence
         (take m (file_records env "reads.fa" (files (ready disk_broken)))))
      tagged_graph = inr g'.
Proof.
  split; [reflexivity|].
  apply (load_and_tag_frame env (ready disk_broken) "reads.fa" tagged_graph).
  reflexivity.
Defined.


(** ** [main] on the two reads *)

(** The two disks differ (on the second, saving fails), the input file is
    the same on both. *)
Lemma run_ignores_rest_of_disk_witness :
  fst (run_on (Supplied plain) disk0) <> fst (run_on (Supplied plain) disk_locked) /\
  ct (snd (run_on (Supplied plain) disk0)) =
    ct (snd (run_on (Supplied plain) disk_locked)) /\
  nbhd_mh (snd (run_on (Supplied plain) disk0)) =
    nbhd_mh (snd (run_on (Supplied plain) disk_locked)) /\
  calls (snd (run_on (Supplied plain) disk0)) =
    calls (snd (run_on (Supplied plain) disk_locked)) /\
  (fst (run_on (Supplied plain) disk0) = fst (run_on (Supplied plain) disk_locked) ->
   stdout (snd (run_on (Supplied plain) disk0)) =
     stdout (snd (run_on (Supplied plain) disk_locked))).
Proof.
  split; [vm_compute; discriminate|].
  apply (run_ignores_rest_of_disk env script_globals (Supplied plain) disk0 disk_locked).
  intros c Hc. inversion Hc; subst c. vm_compute. reflexivity.
Defined.


Lemma run_returns_only_if_every_step_does_witness :
  fst (run env script_globals (Supplied plain) disk0) = Returned tt /\
  exists g0 g1 s g2 i d',
    Countgraph env (args_ksize (namespace_of script_globals plain))
      500000000 2 = inr g0 /\
    _set_tag_density env 200 g0 = inr g1 /\
    screed_open env (cl_seqfile plain) disk0 = inr s /\
    stream_complete s = true /\
    consume_all env (map sequence (stream_records s)) g1 = inr g2 /\
    build_neighborhood_minhashes env 20 9999999967 (cl_protein plain) g2 =
      inr i /\
    save env i (output_path (namespace_of script_globals plain)) disk0 =
      (None, d').
Proof.
  assert (H : fst (run env script_globals (Supplied plain) disk0) = Returned tt).
  { vm_compute. reflexivity. }
  split; [exact H|].
  exact (run_returns_only_if_every_step_does env script_globals plain disk0 H).
Defined.


(** Saving fails on [disk_locked]; the index the run leaves was still
    built from the graph it leaves. *)
Lemma run_index_built_from_graph_witness :
  nbhd_mh (snd (run env script_globals (Supplied plain) disk_locked)) =
    Some built_index /\
  exists x,
    ct (snd (run env script_globals (Supplied plain) disk_locked)) = Some x /\
    build_neighborhood_minhashes env 20 9999999967 (cl_protein plain) x =
      inr built_index.
Proof.
  assert (H : nbhd_mh (snd (run env script_globals (Supplied plain) disk_locked)) =
              Some built_index).
  { vm_compute. reflexivity. }
  split; [exact H|].
  exact (run_index_built_from_graph env script_globals plain disk_locked
           built_index H).
Defined.

(** Reading breaks off after the first read on [disk_broken]; the graph
    left has consumed that read. *)
Lemma run_graph_consumed_prefix_witness :
  ct (snd (run env script_globals (Supplied plain) disk_broken)) =
    Some half_graph /\
  exists g0,
    Countgraph env (args_ksize (namespace_of script_globals plain))
      500000000 2 = inr g0 /\
    ((half_graph = g0 /\ exists e, _set_tag_density env 200 g0 = inl e) \/
     exists g1 m,
       _set_tag_density env 200 g0 = inr g1 /\
       consume_all env
         (map sequence
            (take m (file_records env (cl_seqfile plain) disk_broken))) g1 =
         inr half_graph).
Proof.
  assert (H : ct (snd (run env script_globals (Supplied plain) disk_broken)) =
              Some half_graph).
  { vm_compute. reflexivity. }
  split; [exact H|].
  exact (run_graph_consumed_prefix env script_globals plain disk_broken
           half_graph H).
Defined.
